(** * ramenbooth: a shallow embedding of the dashboard (src/unnamed/part_000)

    The Go program is a bubbletea application.  The model holds a slice of
    [clusterInfo] records; the poll command mutates the backing array of that
    slice in place, field by field, from a background goroutine.  We model:
    - the remote cluster API as a [Client] record of canned responses;
    - [updateClusterData] in a small monad over the record it mutates
      through its pointer, with the trace of issued remote calls and Go
      panics (a method call on a nil client);
    - slices as headers into a shared store of backing arrays, so that the
      aliasing between the model and the background command is explicit;
    - [Update] as a pure function on the model, and the background poll
      goroutine as a small-step thread over the shared store;
    - [View] over the lipgloss layout primitives, kept abstract. *)

From stdpp Require Import base gmap list strings.
From Stdlib Require Import ZArith.

Open Scope Z_scope.
Set Warnings "-register-all".

(* ------------------------------------------------------------------ *)
(** ** Data model *)

Record clusterInfo := {
  name : string;
  status : string;
  context : string;
  namespaces : list string;
  DRPCs : list string;
  hub : bool;
  managedcluster : bool;
}.

Definition set_status (s : string) (c : clusterInfo) : clusterInfo :=
  {| name := c.(name); status := s; context := c.(context);
     namespaces := c.(namespaces); DRPCs := c.(DRPCs); hub := c.(hub);
     managedcluster := c.(managedcluster) |}.

Definition set_namespaces (ns : list string) (c : clusterInfo) : clusterInfo :=
  {| name := c.(name); status := c.(status); context := c.(context);
     namespaces := ns; DRPCs := c.(DRPCs); hub := c.(hub);
     managedcluster := c.(managedcluster) |}.

Definition set_DRPCs (d : list string) (c : clusterInfo) : clusterInfo :=
  {| name := c.(name); status := c.(status); context := c.(context);
     namespaces := c.(namespaces); DRPCs := d; hub := c.(hub);
     managedcluster := c.(managedcluster) |}.

(** [newClusterInfo]: namespaces and DRPCs are Go nil slices, i.e. empty. *)
Definition newClusterInfo (name0 context0 : string) (hub0 managedcluster0 : bool)
  : clusterInfo :=
  {| name := name0; status := "Unknown"; context := context0;
     namespaces := []; DRPCs := []; hub := hub0;
     managedcluster := managedcluster0 |}.

(* ------------------------------------------------------------------ *)
(** ** The remote API

    A connected client answers the three [List] calls the program makes;
    [None] is an error returned by the API server, [Some items] the names
    of the listed objects in listing order. *)

Record Client := {
  nodeList : option (list string);
  namespaceList : option (list string);
  drpcList : option (list string);
}.

Inductive call := CallNodes | CallNamespaces | CallDRPCs.

#[global] Instance call_eq_dec : EqDecision call.
Proof. solve_decision. Defined.

(** [fetchClusterClient]: building the config or the client may fail, and
    the function then returns a nil client.  What the kubeconfig at a path
    yields is the environment: [connect]. *)
Definition fetchClusterClient (connect : string -> option Client)
  (kubeconfig : string) : option Client :=
  connect kubeconfig.

(* ------------------------------------------------------------------ *)
(** ** The poll monad

    [updateClusterData] mutates the record behind its pointer [c].  A
    computation threads that record and the list of remote calls issued so
    far; it yields [None] when the goroutine panics (the record keeps the
    writes done before the panic). *)

Definition cstate : Type := clusterInfo * list call.

Definition M (A : Type) : Type := cstate -> cstate * option A.

#[global] Instance M_ret : MRet M := fun A a s => (s, Some a).
#[global] Instance M_bind : MBind M := fun A B f m s =>
  match m s with
  | (s', Some a) => f a s'
  | (s', None) => (s', None)
  end.

Definition getc : M clusterInfo := fun s => (s, Some s.1).
Definition putc (c : clusterInfo) : M unit := fun s => ((c, s.2), Some tt).

(** [kclient.List(ctx, obj, opts)]: the call is issued on the client; on a
    nil client it is a nil pointer dereference and the goroutine panics. *)
Definition kList (kclient : option Client) (what : call)
  : M (option (list string)) :=
  fun s =>
    let s' := (s.1, s.2 ++ [what]) in
    match kclient with
    | None => (s', None)
    | Some k =>
        (s', Some (match what with
                   | CallNodes => nodeList k
                   | CallNamespaces => namespaceList k
                   | CallDRPCs => drpcList k
                   end))
    end.

(** The allow-set of [filterRamenNamespaces] (part_000). *)
Definition isRamenNamespace (n : string) : bool :=
  bool_decide (n = "ramen-system") || bool_decide (n = "ramen-ops") ||
  bool_decide (n = "openshift-operators") ||
  bool_decide (n = "openshift-dr-system") ||
  bool_decide (n = "openshift-dr-ops").

(** The same allow-set, as a list. *)
Definition ramenAllowSet : list string :=
  ["ramen-system"; "ramen-ops"; "openshift-operators"; "openshift-dr-system";
   "openshift-dr-ops"].

Fixpoint filterRamenNamespaces (items : list string) : list string :=
  match items with
  | [] => []
  | n :: rest =>
      if isRamenNamespace n then n :: filterRamenNamespaces rest
      else filterRamenNamespaces rest
  end.

(** [getNamespaces]: an error yields an empty list. *)
Definition getNamespaces (kclient : option Client) : M (list string) :=
  r ← kList kclient CallNamespaces;
  mret (match r with Some items => items | None => [] end).

Definition getRamenNamespaces (c : clusterInfo) (kclient : option Client)
  : M (list string) :=
  ns ← getNamespaces kclient;
  mret (filterRamenNamespaces ns).

Definition getDRPCs (c : clusterInfo) (kclient : option Client)
  : M (list string) :=
  if negb c.(hub) then mret []
  else
    r ← kList kclient CallDRPCs;
    match r with
    | None => mret []
    | Some items => mret items
    end.

Definition getClusterStatus (c : clusterInfo) (kclient : option Client)
  : M string :=
  r ← kList kclient CallNodes;
  match r with
  | None => mret "Error"
  | Some _ => mret "Healthy"
  end.

(** The statements of [updateClusterData], one per write to [c]. *)
Definition nilGuard (kclient : option Client) : M unit :=
  match kclient with
  | None => c ← getc; putc (set_namespaces [] (set_status "Error" c))
  | Some _ => mret tt
  end.

Definition writeStatus (kclient : option Client) : M unit :=
  c ← getc; st ← getClusterStatus c kclient; c' ← getc; putc (set_status st c').

Definition writeNamespaces (kclient : option Client) : M unit :=
  c ← getc; ns ← getRamenNamespaces c kclient; c' ← getc;
  putc (set_namespaces ns c').

Definition writeDRPCs (kclient : option Client) : M unit :=
  c ← getc; d ← getDRPCs c kclient; c' ← getc; putc (set_DRPCs d c').

Definition updateClusterData (connect : string -> option Client) : M unit :=
  c ← getc;
  let kclient := fetchClusterClient connect c.(context) in
  nilGuard kclient;;
  writeStatus kclient;;
  writeNamespaces kclient;;
  writeDRPCs kclient.

(** One poll of one cluster record, starting with an empty call trace. *)
Definition poll (connect : string -> option Client) (c : clusterInfo)
  : cstate * option unit :=
  updateClusterData connect (c, []).

(* ------------------------------------------------------------------ *)
(** ** Slices and the shared store

    A Go slice is a header (pointer to a backing array, length) and copies
    of the header share the array.  [initialModel] allocates the only array
    of clusters; the model, each copy of it, and each poll command all hold
    headers to it. *)

Record slice := { s_ptr : nat; s_len : nat }.

Abbreviation store := (gmap nat (list clusterInfo)) (only parsing).

(** [( *clusters)[i]]: [None] is an index out of range (a panic). *)
Definition cluster_at (st : store) (s : slice) (i : nat) : option clusterInfo :=
  if bool_decide (i < s_len s)%nat then
    arr ← st !! s_ptr s; arr !! i
  else None.

(** The program's model; the [ticker] field is never set nor read. *)
Record model := { clusters : slice; cursor : Z; width : Z; height : Z }.

Definition set_clusters (s : slice) (m : model) : model :=
  {| clusters := s; cursor := m.(cursor); width := m.(width); height := m.(height) |}.
Definition set_cursor (k : Z) (m : model) : model :=
  {| clusters := m.(clusters); cursor := k; width := m.(width); height := m.(height) |}.
Definition set_size (w h : Z) (m : model) : model :=
  {| clusters := m.(clusters); cursor := m.(cursor); width := w; height := h |}.

(** The registry of [initialModel], from the three kubeconfig flags. *)
Definition registry (hubcfg dr1cfg dr2cfg : string) : list clusterInfo :=
  [newClusterInfo "Hub" hubcfg true false;
   newClusterInfo "DR1" dr1cfg false true;
   newClusterInfo "DR2" dr2cfg false true].

Definition clusters_addr : nat := 0.

Definition initialModel (hubcfg dr1cfg dr2cfg : string) : store * model :=
  ({[clusters_addr := registry hubcfg dr1cfg dr2cfg]},
   {| clusters := {| s_ptr := clusters_addr; s_len := 3 |};
      cursor := 0; width := 0; height := 0 |}).

(* ------------------------------------------------------------------ *)
(** ** Messages, commands and [Update] *)

(** [tea.Msg] values the program can meet, by dynamic type. *)
Inductive msg :=
  | MsgClusters (s : slice)        (* []clusterInfo *)
  | MsgClustersPtr (s : slice)     (* *[]clusterInfo, with the header it points to *)
  | MsgWindowSize (w h : Z)        (* tea.WindowSizeMsg *)
  | MsgKey (k : string)            (* tea.KeyMsg, by msg.String() *)
  | MsgTime (t : Z)                (* time.Time, from tickCmd *)
  | MsgQuit                        (* tea.QuitMsg, from tea.Quit *)
  | MsgOther.

(** [tea.Cmd] values the program builds. *)
Inductive cmd :=
  | CmdUpdateClusters (s : slice)  (* updateClustersData(&m.clusters) *)
  | CmdTick                        (* tickCmd() *)
  | CmdQuit                        (* tea.Quit *)
  | CmdBatch (cs : list cmd).      (* tea.Batch(...) *)

Definition Init (m : model) : option cmd :=
  Some (CmdBatch [CmdUpdateClusters m.(clusters); CmdTick]).

Definition Update (m : model) (ms : msg) : model * option cmd :=
  match ms with
  | MsgClusters s => (set_clusters s m, None)
  | MsgWindowSize w h => (set_size w h m, None)
  | MsgKey k =>
      if bool_decide (k = "ctrl+c") || bool_decide (k = "q") then (m, Some CmdQuit)
      else if bool_decide (k = "up") || bool_decide (k = "k") then
        if 0 <? m.(cursor) then (set_cursor (m.(cursor) - 1) m, None) else (m, None)
      else if bool_decide (k = "down") || bool_decide (k = "j") then
        if m.(cursor) <? Z.of_nat (s_len m.(clusters)) - 1
        then (set_cursor (m.(cursor) + 1) m, None) else (m, None)
      else (m, None)
  | MsgTime _ =>
      (m, Some (CmdBatch [CmdUpdateClusters m.(clusters); CmdTick]))
  | _ => (m, None)
  end.

(** The commands a (possibly batched) command starts. *)
Fixpoint leaves (c : cmd) : list cmd :=
  match c with
  | CmdBatch cs => flat_map leaves cs
  | _ => [c]
  end.

Definition cmds_of (oc : option cmd) : list cmd :=
  match oc with None => [] | Some c => leaves c end.

(** A sequence of messages fed to [Update], with the commands started. *)
Fixpoint run_updates (m : model) (msgs : list msg) : model * list cmd :=
  match msgs with
  | [] => (m, [])
  | ms :: rest =>
      let '(m1, oc) := Update m ms in
      let '(m2, cs) := run_updates m1 rest in
      (m2, cmds_of oc ++ cs)
  end.

(* ------------------------------------------------------------------ *)
(** ** The bubbletea event loop

    Messages wait in a FIFO channel.  [tea.QuitMsg] stops the loop before
    [Update] sees it.  A command runs in its own goroutine: the message of
    [tea.Quit] joins the channel behind the messages already waiting; the
    messages of the poll and tick commands arrive later from the
    environment, so the loop only records that those commands were
    started. *)

Record runtime := {
  rt_model : model;
  rt_queue : list msg;
  rt_started : list cmd;
  rt_stopped : bool;
}.

Definition is_quit (c : cmd) : bool :=
  match c with CmdQuit => true | _ => false end.

Definition rt_step (r : runtime) : runtime :=
  if r.(rt_stopped) then r
  else match r.(rt_queue) with
  | [] => r
  | MsgQuit :: q =>
      {| rt_model := r.(rt_model); rt_queue := q;
         rt_started := r.(rt_started); rt_stopped := true |}
  | ms :: q =>
      let '(m', oc) := Update r.(rt_model) ms in
      let cs := cmds_of oc in
      {| rt_model := m';
         rt_queue := q ++ (if existsb is_quit cs then [MsgQuit] else []);
         rt_started := r.(rt_started) ++ cs;
         rt_stopped := false |}
  end.

Fixpoint rt_run (n : nat) (r : runtime) : runtime :=
  match n with O => r | S n' => rt_run n' (rt_step r) end.

(* ------------------------------------------------------------------ *)
(** ** The poll goroutine, step by step

    [updateClustersData(clusters)] runs [updateClusterData(&( *clusters)[i])]
    for each index, in a goroutine, on the shared backing array.  One step
    is one statement of [updateClusterData]: it reads the current record,
    issues its remote call, and writes one field.  [th_connect] is what the
    remotes answer during this poll attempt. *)

Inductive pc :=
  | PcLoop (i : nat)
  | PcStatus (i : nat) (kclient : option Client)
  | PcNamespaces (i : nat) (kclient : option Client)
  | PcDRPCs (i : nat) (kclient : option Client)
  | PcReturned
  | PcPanicked.

Record thread := {
  th_connect : string -> option Client;
  th_clusters : slice;
  th_pc : pc;
}.

Definition set_pc (p : pc) (th : thread) : thread :=
  {| th_connect := th.(th_connect); th_clusters := th.(th_clusters); th_pc := p |}.

(** Run one statement on [( *clusters)[i]] in place; [false] on a panic. *)
Definition runAt (st : store) (s : slice) (i : nat) (act : M unit) : store * bool :=
  match cluster_at st s i, st !! s_ptr s with
  | Some c, Some arr =>
      let '((c', _), r) := act (c, []) in
      (<[s_ptr s := <[i := c']> arr]> st, bool_decide (r = Some tt))
  | _, _ => (st, false)
  end.

Definition next_pc (ok : bool) (p : pc) : pc := if ok then p else PcPanicked.

Definition thread_step (st : store) (th : thread) : store * thread :=
  let s := th.(th_clusters) in
  match th.(th_pc) with
  | PcLoop i =>
      if bool_decide (i < s_len s)%nat then
        match cluster_at st s i with
        | Some c =>
            let kclient := fetchClusterClient th.(th_connect) c.(context) in
            let '(st', ok) := runAt st s i (nilGuard kclient) in
            (st', set_pc (next_pc ok (PcStatus i kclient)) th)
        | None => (st, set_pc PcPanicked th)
        end
      else (st, set_pc PcReturned th)
  | PcStatus i k =>
      let '(st', ok) := runAt st s i (writeStatus k) in
      (st', set_pc (next_pc ok (PcNamespaces i k)) th)
  | PcNamespaces i k =>
      let '(st', ok) := runAt st s i (writeNamespaces k) in
      (st', set_pc (next_pc ok (PcDRPCs i k)) th)
  | PcDRPCs i k =>
      let '(st', ok) := runAt st s i (writeDRPCs k) in
      (st', set_pc (next_pc ok (PcLoop (S i))) th)
  | PcReturned | PcPanicked => (st, th)
  end.

(** The poll command started with header [s]. *)
Definition start_poll (connect : string -> option Client) (s : slice) : thread :=
  {| th_connect := connect; th_clusters := s; th_pc := PcLoop 0 |}.

(** [return clusters]: the message delivered once the loop is over. *)
Definition thread_msg (th : thread) : option msg :=
  match th.(th_pc) with
  | PcReturned => Some (MsgClustersPtr th.(th_clusters))
  | _ => None
  end.

Fixpoint run_alone (n : nat) (st : store) (th : thread) : store * thread :=
  match n with
  | O => (st, th)
  | S n' => let '(st', th') := thread_step st th in run_alone n' st' th'
  end.

(** Several poll goroutines interleaved by a schedule of thread indices. *)
Fixpoint run_sched (sched : list nat) (st : store) (ths : list thread)
  : store * list thread :=
  match sched with
  | [] => (st, ths)
  | j :: rest =>
      match ths !! j with
      | Some th =>
          let '(st', th') := thread_step st th in
          run_sched rest st' (<[j := th']> ths)
      | None => run_sched rest st ths
      end
  end.

(** The sequential reading of one poll batch, when no other goroutine
    touches the array meanwhile. *)
Fixpoint pollAll (connect : string -> option Client) (cs : list clusterInfo)
  : option (list clusterInfo) :=
  match cs with
  | [] => Some []
  | c :: rest =>
      match poll connect c with
      | ((c', _), Some _) => (fun r => c' :: r) <$> pollAll connect rest
      | (_, None) => None
      end
  end.

(* ------------------------------------------------------------------ *)
(** ** [View]

    lipgloss is kept abstract: [renderBox msg w h] is
    [lipgloss.NewStyle().Border(lipgloss.NormalBorder(), true).Width(w)
    .Height(h).Align(lipgloss.Left).SetString(msg...).Render()], and the
    two joins are [lipgloss.JoinVertical(lipgloss.Top, ...)] and
    [lipgloss.JoinHorizontal(lipgloss.Left, ...)]. *)

Definition nl : string := String (Ascii.ascii_of_nat 10) EmptyString.

(** [strings.Join(elems, sep)] *)
Fixpoint strings_Join (elems : list string) (sep : string) : string :=
  match elems with
  | [] => ""
  | [x] => x
  | x :: rest => (x ++ sep ++ strings_Join rest sep)%string
  end.

(** [fmt.Sprintf("%s", elems)] on a [[]string]: [[a b c]]. *)
Definition fmt_strings (elems : list string) : string :=
  ("[" ++ strings_Join elems " " ++ "]")%string.

Section Render.

Variable renderBox : list string -> Z -> Z -> string.
Variable joinVertical : list string -> string.
Variable joinHorizontal : list string -> string.

Definition getHubStyle (c : clusterInfo) (w h : Z) : string :=
  renderBox
    [(c.(name) ++ nl ++ nl)%string;
     ("Status: " ++ c.(status) ++ nl)%string;
     ("Namespaces: " ++ strings_Join c.(namespaces) "," ++ nl)%string;
     ("DRPCs: " ++ strings_Join c.(DRPCs) "," ++ nl)%string]
    w h.

Definition getManagedClusterStyle (c : clusterInfo) (w h : Z) : string :=
  renderBox
    [(c.(name) ++ nl ++ nl)%string;
     ("Status: " ++ c.(status) ++ nl)%string;
     ("Namespaces: " ++ fmt_strings c.(namespaces) ++ nl)%string]
    w h.

(** [m.clusters[i]] reads the shared array; an index out of range panics
    ([None]).  Go's [/] on [int] truncates: [Z.quot]. *)
Definition View (st : store) (m : model) : option string :=
  c0 ← cluster_at st m.(clusters) 0;
  c1 ← cluster_at st m.(clusters) 1;
  c2 ← cluster_at st m.(clusters) 2;
  let hubStyle := getHubStyle c0 m.(width) (Z.quot m.(height) 3) in
  let dr1Style := getManagedClusterStyle c1 (Z.quot m.(width) 2) (Z.quot m.(height) 2) in
  let dr2Style := getManagedClusterStyle c2 (Z.quot m.(width) 2) (Z.quot m.(height) 2) in
  let s := joinVertical [hubStyle; joinHorizontal [dr1Style; dr2Style]] in
  Some (s ++ nl ++ nl ++ "Press q to quit." ++ nl)%string.

End Render.

(* ------------------------------------------------------------------ *)
(** ** Concrete environments used by the examples below *)

Definition s0 : slice := {| s_ptr := clusters_addr; s_len := 3 |}.

Definition st0 : store := (initialModel "hub.kubeconfig" "dr1.kubeconfig" "dr2.kubeconfig").1.

Definition m0 : model := (initialModel "hub.kubeconfig" "dr1.kubeconfig" "dr2.kubeconfig").2.

(** Poll attempt A: every call succeeds. *)
Definition attemptA : string -> option Client := fun _ =>
  Some {| nodeList := Some ["node-1"];
          namespaceList := Some ["default"; "ramen-system"];
          drpcList := Some ["drpc-a"] |}.

(** Poll attempt B: the node listing fails, no DR namespace exists. *)
Definition attemptB : string -> option Client := fun _ =>
  Some {| nodeList := None; namespaceList := Some ["default"];
          drpcList := Some [] |}.

(** A, then B wholly, then A's last writes to the hub record, then both
    goroutines to completion. *)
Definition overlap_sched : list nat :=
  [0; 0; 1; 1; 1; 1; 0; 0]%nat ++ repeat 1%nat 9 ++ repeat 0%nat 9.

(* ------------------------------------------------------------------ *)
(** ** src/main.go: the earlier [filterRamenNamespaces]

    The allow-set of src/main.go lacks "openshift-dr-ops". *)

Definition isRamenNamespace_main (n : string) : bool :=
  bool_decide (n = "ramen-system") || bool_decide (n = "ramen-ops") ||
  bool_decide (n = "openshift-operators") ||
  bool_decide (n = "openshift-dr-system").

Fixpoint filterRamenNamespaces_main (items : list string) : list string :=
  match items with
  | [] => []
  | n :: rest =>
      if isRamenNamespace_main n then n :: filterRamenNamespaces_main rest
      else filterRamenNamespaces_main rest
  end.





(* ------------------------------------------------------------------ *)
(** ** Observations on messages, commands and records *)

Definition is_time (ms : msg) : bool :=
  match ms with MsgTime _ => true | _ => false end.

(** The keys of the [case "ctrl+c", "q"] branch of [Update]. *)
Definition is_quit_key (ms : msg) : bool :=
  match ms with
  | MsgKey k => bool_decide (k = "ctrl+c") || bool_decide (k = "q")
  | _ => false
  end.

Definition is_tick (c : cmd) : bool :=
  match c with CmdTick => true | _ => false end.

Definition is_poll (c : cmd) : bool :=
  match c with CmdUpdateClusters _ => true | _ => false end.

(** The fields of a record that no statement of the program writes. *)
Definition identity (c : clusterInfo) : string * string * bool * bool :=
  (c.(name), c.(context), c.(hub), c.(managedcluster)).

(** What a store holds at an address, up to the fields the poll writes. *)
Definition shape (st : store) (p : nat) : option (list (string * string * bool * bool)) :=
  (fun arr : list clusterInfo => identity <$> arr) <$> st !! p.

(** Two records show the same box: name, status and namespaces, and the
    DRPCs too in the hub box. *)
Definition same_display (hub_box : bool) (c c' : clusterInfo) : Prop :=
  c.(name) = c'.(name) /\ c.(status) = c'.(status) /\
  c.(namespaces) = c'.(namespaces) /\ (hub_box = true -> c.(DRPCs) = c'.(DRPCs)).

(** Fixtures of the further properties. *)
Definition st0_redrawn : store :=
  <[clusters_addr := registry "hub.kubeconfig" "other-dr1.kubeconfig" "dr2.kubeconfig"]> st0.

Definition fifo_msgs : list msg := [MsgKey "down"; MsgTime 5; MsgWindowSize 80 24].

(* ================================================================== *)
(** * Theorems *)

Ltac unfold_M :=
  unfold mbind, M_bind, mret, M_ret, getc, putc, kList in *.

Ltac unfold_poll :=
  unfold poll, updateClusterData, fetchClusterClient, nilGuard, writeStatus,
    writeNamespaces, writeDRPCs, getClusterStatus, getRamenNamespaces,
    getNamespaces, getDRPCs in *; unfold_M.

(** One poll on a connected client, written out. *)
Lemma poll_connected (connect : string -> option Client) (c : clusterInfo) (k : Client) :
  connect c.(context) = Some k ->
  poll connect c =
    ((set_DRPCs
        (if c.(hub) then match drpcList k with Some d => d | None => [] end else [])
        (set_namespaces
           (filterRamenNamespaces
              (match namespaceList k with Some ns => ns | None => [] end))
           (set_status
              (match nodeList k with Some _ => "Healthy" | None => "Error" end) c)),
      [CallNodes; CallNamespaces] ++ (if c.(hub) then [CallDRPCs] else [])),
     Some tt).
Proof.
  intros Hk. unfold_poll. simpl. rewrite Hk.
  destruct c as [n s cx ns d h mc]; simpl.
  destruct (nodeList k), (namespaceList k), h, (drpcList k); reflexivity.
Qed.

(** One poll with a nil client, written out. *)
Lemma poll_nil (connect : string -> option Client) (c : clusterInfo) :
  connect c.(context) = None ->
  poll connect c = ((set_namespaces [] (set_status "Error" c), [CallNodes]), None).
Proof.
  intros Hk. unfold_poll. simpl. rewrite Hk. reflexivity.
Qed.

(** ** C2 *)

(** C2 (code_bug): when client construction fails, [updateClusterData]
    writes status "Error" and empty namespaces but does not return: it goes
    on to issue the node listing on the nil client, and the goroutine
    panics; no status record is produced. *)
Theorem C2_nil_client_panics (connect : string -> option Client) (c : clusterInfo) :
  connect c.(context) = None ->
  poll connect c = ((set_namespaces [] (set_status "Error" c), [CallNodes]), None).
Proof. apply poll_nil. Qed.

Lemma C2_nil_client_panics_witness :
  (fun _ : string => @None Client) "/nonexistent/kubeconfig" = None /\
  poll (fun _ => None) (newClusterInfo "DR1" "/nonexistent/kubeconfig" false true) =
    ((set_namespaces [] (set_status "Error"
        (newClusterInfo "DR1" "/nonexistent/kubeconfig" false true)), [CallNodes]), None).
Proof.
  split; [reflexivity |].
  apply (C2_nil_client_panics (fun _ => None)
           (newClusterInfo "DR1" "/nonexistent/kubeconfig" false true)).
  reflexivity.
Defined.

(** ** C3 *)

(** C3 (counterexample): the node listing of the hub fails, yet the
    namespace listing and the DRPC listing are issued and the namespace
    field is filled. *)
Lemma C3_no_short_circuit :
  poll (fun _ => Some {| nodeList := None; namespaceList := Some ["ramen-system"];
                         drpcList := Some ["drpc-a"] |})
       (newClusterInfo "Hub" "hub.kubeconfig" true false) =
    ((set_DRPCs ["drpc-a"] (set_namespaces ["ramen-system"]
        (set_status "Error" (newClusterInfo "Hub" "hub.kubeconfig" true false))),
      [CallNodes; CallNamespaces; CallDRPCs]), Some tt).
Proof. reflexivity. Qed.

(** C3 (amended): when the client is built but the node listing fails,
    health is "Error", the namespace listing is still issued and its
    filtered result stored (empty when it fails), and the hub still lists
    its DRPCs (a secondary gets none); no panic. *)
Theorem C3_health_failure_best_effort (connect : string -> option Client)
  (c : clusterInfo) (k : Client) :
  connect c.(context) = Some k ->
  nodeList k = None ->
  exists c',
    poll connect c =
      ((c', [CallNodes; CallNamespaces] ++ (if c.(hub) then [CallDRPCs] else [])),
       Some tt) /\
    c'.(status) = "Error" /\
    c'.(namespaces) =
      filterRamenNamespaces (match namespaceList k with Some ns => ns | None => [] end) /\
    c'.(DRPCs) =
      (if c.(hub) then match drpcList k with Some d => d | None => [] end else []).
Proof.
  intros Hk Hn. rewrite (poll_connected connect c k Hk), Hn.
  eexists; split; [reflexivity |]. simpl. auto.
Qed.

Lemma C3_health_failure_best_effort_witness :
  exists c',
    poll (fun _ => Some {| nodeList := None; namespaceList := Some ["ramen-system"];
                           drpcList := Some ["drpc-a"] |})
         (newClusterInfo "Hub" "hub.kubeconfig" true false) =
      ((c', [CallNodes; CallNamespaces; CallDRPCs]), Some tt) /\
    c'.(status) = "Error" /\
    c'.(namespaces) = filterRamenNamespaces ["ramen-system"] /\
    c'.(DRPCs) = ["drpc-a"].
Proof.
  apply (C3_health_failure_best_effort
           (fun _ => Some {| nodeList := None; namespaceList := Some ["ramen-system"];
                             drpcList := Some ["drpc-a"] |})
           (newClusterInfo "Hub" "hub.kubeconfig" true false)
           {| nodeList := None; namespaceList := Some ["ramen-system"];
              drpcList := Some ["drpc-a"] |}); reflexivity.
Defined.

(** ** C4 *)

(** C4: a poll of a secondary (non-hub) cluster stores no DRPC, whatever
    the remote holds; a poll of the hub stores the names of the listed
    DRPCs in listing order. *)
Theorem C4_drpcs_by_role (connect : string -> option Client)
  (c : clusterInfo) (k : Client) :
  connect c.(context) = Some k ->
  exists c' tr,
    poll connect c = ((c', tr), Some tt) /\
    (c.(hub) = false -> c'.(DRPCs) = []) /\
    (forall items, c.(hub) = true -> drpcList k = Some items -> c'.(DRPCs) = items).
Proof.
  intros Hk. rewrite (poll_connected connect c k Hk).
  do 2 eexists; split; [reflexivity |]. simpl.
  split.
  - intros Hh. rewrite Hh. reflexivity.
  - intros items Hh Hd. rewrite Hh, Hd. reflexivity.
Qed.

Lemma C4_drpcs_by_role_witness :
  exists c' tr,
    poll (fun _ => Some {| nodeList := Some []; namespaceList := Some [];
                           drpcList := Some ["drpc-a"; "drpc-b"] |})
         (newClusterInfo "DR1" "dr1.kubeconfig" false true) = ((c', tr), Some tt) /\
    (false = false -> c'.(DRPCs) = []) /\
    (forall items, false = true ->
       Some ["drpc-a"; "drpc-b"] = Some items -> c'.(DRPCs) = items).
Proof.
  exact (C4_drpcs_by_role
           (fun _ => Some {| nodeList := Some []; namespaceList := Some [];
                             drpcList := Some ["drpc-a"; "drpc-b"] |})
           (newClusterInfo "DR1" "dr1.kubeconfig" false true)
           {| nodeList := Some []; namespaceList := Some [];
              drpcList := Some ["drpc-a"; "drpc-b"] |}
           eq_refl).
Defined.

(** ** C5 *)

Lemma isRamenNamespace_spec (n : string) :
  isRamenNamespace n = true <-> n ∈ ramenAllowSet.
Proof.
  unfold isRamenNamespace, ramenAllowSet.
  rewrite !orb_true_iff, !bool_decide_eq_true, !elem_of_cons.
  rewrite elem_of_nil. tauto.
Qed.

Lemma filterRamenNamespaces_filter (items : list string) :
  filterRamenNamespaces items = filter (fun n => n ∈ ramenAllowSet) items.
Proof.
  induction items as [| n rest IH]; [reflexivity |].
  simpl. rewrite filter_cons. destruct (isRamenNamespace n) eqn:E.
  - apply isRamenNamespace_spec in E. rewrite decide_True by exact E.
    f_equal. exact IH.
  - rewrite decide_False; [exact IH |].
    intros Hin. apply isRamenNamespace_spec in Hin. congruence.
Qed.

(** C5: when the namespace listing returns [items], the stored namespaces
    are the names of [items] in the allow-set, by exact equality, in the
    order of [items]: a sublist of [items], holding every allowed name. *)
Theorem C5_namespaces_filtered (connect : string -> option Client)
  (c : clusterInfo) (k : Client) (items : list string) :
  connect c.(context) = Some k ->
  namespaceList k = Some items ->
  exists c' tr,
    poll connect c = ((c', tr), Some tt) /\
    c'.(namespaces) = filter (fun n => n ∈ ramenAllowSet) items /\
    c'.(namespaces) `sublist_of` items /\
    (forall n, n ∈ c'.(namespaces) <-> n ∈ items /\ n ∈ ramenAllowSet).
Proof.
  intros Hk Hns. rewrite (poll_connected connect c k Hk), Hns.
  do 2 eexists; split; [reflexivity |]. simpl.
  rewrite filterRamenNamespaces_filter.
  split; [reflexivity |]. split.
  - apply sublist_filter.
  - intros n. rewrite list_elem_of_filter. tauto.
Qed.

Lemma C5_namespaces_filtered_witness :
  exists c' tr,
    poll (fun _ => Some {| nodeList := Some ["node-1"];
                           namespaceList := Some ["ramen-ops"; "default"; "ramen-system"];
                           drpcList := Some [] |})
         (newClusterInfo "Hub" "hub.kubeconfig" true false) = ((c', tr), Some tt) /\
    c'.(namespaces) = filter (fun n => n ∈ ramenAllowSet)
                        ["ramen-ops"; "default"; "ramen-system"] /\
    c'.(namespaces) `sublist_of` ["ramen-ops"; "default"; "ramen-system"] /\
    (forall n, n ∈ c'.(namespaces) <->
       n ∈ ["ramen-ops"; "default"; "ramen-system"] /\ n ∈ ramenAllowSet).
Proof.
  apply (C5_namespaces_filtered
           (fun _ => Some {| nodeList := Some ["node-1"];
                             namespaceList := Some ["ramen-ops"; "default"; "ramen-system"];
                             drpcList := Some [] |})
           (newClusterInfo "Hub" "hub.kubeconfig" true false)
           {| nodeList := Some ["node-1"];
              namespaceList := Some ["ramen-ops"; "default"; "ramen-system"];
              drpcList := Some [] |}); reflexivity.
Defined.

Example filterRamenNamespaces_order :
  filterRamenNamespaces ["ramen-ops"; "default"; "ramen-system"; "ramen-ops"] =
    ["ramen-ops"; "ramen-system"; "ramen-ops"].
Proof. reflexivity. Qed.

(** ** C6 *)

(** One [Update] keeps the slice length [N >= 1] and the cursor in
    [[0, N-1]], provided a [[]clusterInfo] message has length [N]. *)
Lemma Update_keeps_bounds (n : nat) (m : model) (ms : msg) :
  (1 <= n)%nat ->
  s_len m.(clusters) = n ->
  0 <= m.(cursor) <= Z.of_nat n - 1 ->
  (forall s, ms = MsgClusters s -> s_len s = n) ->
  s_len (Update m ms).1.(clusters) = n /\
  0 <= (Update m ms).1.(cursor) <= Z.of_nat n - 1.
Proof.
  intros Hn Hlen Hcur Hmsg.
  destruct ms as [s | s | w h | k | t | |]; simpl;
    try (split; [exact Hlen | exact Hcur]).
  - split; [apply Hmsg; reflexivity | exact Hcur].
  - destruct (bool_decide (k = "ctrl+c") || bool_decide (k = "q")); simpl;
      [split; [exact Hlen | exact Hcur] |].
    destruct (bool_decide (k = "up") || bool_decide (k = "k")).
    + destruct (0 <? cursor m) eqn:E; simpl; [| split; [exact Hlen | exact Hcur]].
      apply Z.ltb_lt in E. split; [exact Hlen | lia].
    + destruct (bool_decide (k = "down") || bool_decide (k = "j")); simpl;
        [| split; [exact Hlen | exact Hcur]].
      rewrite Hlen.
      destruct (cursor m <? Z.of_nat n - 1) eqn:E; simpl;
        [| split; [exact Hlen | exact Hcur]].
      apply Z.ltb_lt in E. split; [exact Hlen | lia].
Qed.

Lemma run_updates_keeps_bounds (n : nat) (msgs : list msg) (m : model) :
  (1 <= n)%nat ->
  s_len m.(clusters) = n ->
  0 <= m.(cursor) <= Z.of_nat n - 1 ->
  (forall s, MsgClusters s ∈ msgs -> s_len s = n) ->
  s_len (run_updates m msgs).1.(clusters) = n /\
  0 <= (run_updates m msgs).1.(cursor) <= Z.of_nat n - 1.
Proof.
  intros Hn. revert m.
  induction msgs as [| ms rest IH]; intros m Hlen Hcur Hmsgs; simpl; [auto |].
  destruct (Update m ms) as [m1 oc] eqn:E.
  destruct (run_updates m1 rest) as [m2 cs] eqn:E2. simpl.
  destruct (Update_keeps_bounds n m ms Hn Hlen Hcur) as [H1 H2].
  { intros s ->. apply Hmsgs. apply elem_of_cons. left. reflexivity. }
  rewrite E in H1, H2. simpl in H1, H2.
  pose proof (IH m1 H1 H2) as IH'. rewrite E2 in IH'. apply IH'.
  intros s Hs. apply Hmsgs. apply elem_of_cons. right. exact Hs.
Qed.

(** C6: from [initialModel], for every sequence of messages (keys, ticks,
    window sizes, poll results), the model's slice keeps one entry per
    registered cluster and the cursor stays in [[0, N-1]]; a
    [[]clusterInfo] message is assumed to cover the whole registry. *)
Theorem C6_len_and_cursor_bounds (hubcfg dr1cfg dr2cfg : string) (msgs : list msg) :
  (forall s, MsgClusters s ∈ msgs ->
     s_len s = length (registry hubcfg dr1cfg dr2cfg)) ->
  let m := (run_updates (initialModel hubcfg dr1cfg dr2cfg).2 msgs).1 in
  s_len m.(clusters) = length (registry hubcfg dr1cfg dr2cfg) /\
  0 <= m.(cursor) <= Z.of_nat (length (registry hubcfg dr1cfg dr2cfg)) - 1.
Proof.
  intros Hmsgs. simpl.
  apply (run_updates_keeps_bounds 3); simpl; [lia | reflexivity | lia |].
  exact Hmsgs.
Qed.

Lemma C6_len_and_cursor_bounds_witness :
  let msgs := [MsgKey "up"; MsgKey "up"; MsgKey "down"; MsgKey "down"; MsgKey "j";
               MsgKey "down"; MsgTime 1; MsgClustersPtr s0; MsgWindowSize 80 24] in
  let m := (run_updates m0 msgs).1 in
  s_len m.(clusters) = 3%nat /\ 0 <= m.(cursor) <= 2.
Proof.
  exact (C6_len_and_cursor_bounds "hub.kubeconfig" "dr1.kubeconfig" "dr2.kubeconfig"
           [MsgKey "up"; MsgKey "up"; MsgKey "down"; MsgKey "down"; MsgKey "j";
            MsgKey "down"; MsgTime 1; MsgClustersPtr s0; MsgWindowSize 80 24]
           (fun s Hs => ltac:(exfalso; repeat (inversion Hs as [| ? ? ? Hs']; subst;
                                                 clear Hs; rename Hs' into Hs)))).
Defined.

Example cursor_clamped_at_last :
  (run_updates m0 [MsgKey "down"; MsgKey "down"; MsgKey "down"; MsgKey "down"]).1.(cursor) = 2.
Proof. reflexivity. Qed.

Example cursor_clamped_at_zero :
  (run_updates m0 [MsgKey "down"; MsgKey "up"; MsgKey "up"; MsgKey "k"]).1.(cursor) = 0.
Proof. reflexivity. Qed.

(** ** C7 *)

Lemma last_cons_Some {A} (x : A) (l : list A) : exists y, last (x :: l) = Some y.
Proof.
  revert x. induction l as [| x' l IH]; intros x; [eexists; reflexivity |].
  destruct (IH x') as [y Hy]. exists y. exact Hy.
Qed.

(** C7: a sequence of window-size messages changes only the model's
    width and height (to the last size received) and starts no command;
    the slice header and the cursor are unchanged.  [Update] takes no
    store, so the cluster records behind the header are not touched. *)
Theorem C7_resize_frame (m : model) (sizes : list (Z * Z)) :
  run_updates m (map (fun wh => MsgWindowSize wh.1 wh.2) sizes) =
    (match last sizes with
     | None => m
     | Some wh => set_size wh.1 wh.2 m
     end, []).
Proof.
  revert m. induction sizes as [| [w h] rest IH]; intros m; [reflexivity |].
  simpl. rewrite IH. f_equal.
  destruct rest as [| wh rest']; [reflexivity |].
  simpl. destruct (last (wh :: rest')) as [[w' h'] |] eqn:E; [reflexivity |].
  exfalso. destruct (last_cons_Some wh rest') as [y Hy]. congruence.
Qed.

Example resize_keeps_cursor :
  (run_updates (set_cursor 2 m0) [MsgWindowSize 80 24; MsgWindowSize 120 40]) =
    ({| clusters := s0; cursor := 2; width := 120; height := 40 |}, []).
Proof. reflexivity. Qed.

(** ** C8 *)

(** C8 (counterexample): a tick already waiting behind the quit key is
    handled after it, and [Update] starts a poll and a tick for it. *)
Lemma C8_poll_after_quit :
  rt_run 2 {| rt_model := m0; rt_queue := [MsgKey "q"; MsgTime 1];
              rt_started := []; rt_stopped := false |} =
    {| rt_model := m0; rt_queue := [MsgQuit];
       rt_started := [CmdQuit; CmdUpdateClusters s0; CmdTick];
       rt_stopped := false |}.
Proof. reflexivity. Qed.

(** C8 (amended): the quit key leaves the model unchanged and starts only
    [tea.Quit], whose message queues behind those already waiting; the
    model keeps no terminating state, so a tick handled before that
    message still starts a poll and a tick; a poll result message
    ([*[]clusterInfo]) is accepted at any time and starts nothing; once
    the loop has handled the quit message it handles no message and
    starts no command. *)
Theorem C8_quit_semantics (m : model) (s : slice) (t : Z) (q : list msg) (started : list cmd) :
  Update m (MsgKey "q") = (m, Some CmdQuit) /\
  Update m (MsgKey "ctrl+c") = (m, Some CmdQuit) /\
  rt_step {| rt_model := m; rt_queue := MsgKey "q" :: q; rt_started := started;
             rt_stopped := false |} =
    {| rt_model := m; rt_queue := q ++ [MsgQuit]; rt_started := started ++ [CmdQuit];
       rt_stopped := false |} /\
  Update m (MsgTime t) = (m, Some (CmdBatch [CmdUpdateClusters m.(clusters); CmdTick])) /\
  Update m (MsgClustersPtr s) = (m, None) /\
  (rt_step {| rt_model := m; rt_queue := MsgQuit :: q; rt_started := started;
              rt_stopped := false |}).(rt_stopped) = true /\
  (forall n r, r.(rt_stopped) = true -> rt_run n r = r).
Proof.
  split; [reflexivity |]. split; [reflexivity |]. split; [reflexivity |].
  split; [reflexivity |]. split; [reflexivity |]. split; [reflexivity |].
  intros n. induction n as [| n IH]; intros r Hr; [reflexivity |].
  simpl. unfold rt_step. rewrite Hr. apply IH. exact Hr.
Qed.

(** ** C9 *)

(** C9: the message the poll goroutine delivers when its loop is over is
    the pointer [*[]clusterInfo]; [Update] matches no case for it and
    returns the model unchanged with no command.  The records change only
    through the goroutine's writes to the shared store. *)
Theorem C9_pointer_msg_ignored (m : model) (th : thread) (ms : msg) :
  thread_msg th = Some ms ->
  ms = MsgClustersPtr th.(th_clusters) /\ Update m ms = (m, None).
Proof.
  unfold thread_msg. destruct (th_pc th); try discriminate.
  intros H. injection H as <-. split; reflexivity.
Qed.

(** C10: [View] does not read the cursor. *)
Theorem C10_view_ignores_cursor
  (renderBox : list string -> Z -> Z -> string)
  (joinVertical joinHorizontal : list string -> string)
  (st : store) (m : model) (k : Z) :
  View renderBox joinVertical joinHorizontal st (set_cursor k m) =
  View renderBox joinVertical joinHorizontal st m.
Proof. reflexivity. Qed.

Lemma C9_pointer_msg_ignored_witness :
  MsgClustersPtr s0 = MsgClustersPtr (run_alone 13 st0 (start_poll attemptA s0)).2.(th_clusters) /\
  Update m0 (MsgClustersPtr s0) = (m0, None).
Proof.
  exact (C9_pointer_msg_ignored m0 (run_alone 13 st0 (start_poll attemptA s0)).2
           (MsgClustersPtr s0) ltac:(vm_compute; reflexivity)).
Defined.

(** ** C1 *)

(** The statements of [updateClusterData] on a connected client. *)
Lemma nilGuard_some (k : Client) (c : clusterInfo) (tr : list call) :
  nilGuard (Some k) (c, tr) = ((c, tr), Some tt).
Proof. reflexivity. Qed.

Lemma writeStatus_some (k : Client) (c : clusterInfo) (tr : list call) :
  writeStatus (Some k) (c, tr) =
    ((set_status (match nodeList k with Some _ => "Healthy" | None => "Error" end) c,
      tr ++ [CallNodes]), Some tt).
Proof. unfold writeStatus, getClusterStatus; unfold_M; simpl. by destruct (nodeList k). Qed.

Lemma writeNamespaces_some (k : Client) (c : clusterInfo) (tr : list call) :
  writeNamespaces (Some k) (c, tr) =
    ((set_namespaces
        (filterRamenNamespaces (match namespaceList k with Some ns => ns | None => [] end)) c,
      tr ++ [CallNamespaces]), Some tt).
Proof.
  unfold writeNamespaces, getRamenNamespaces, getNamespaces; unfold_M; simpl.
  by destruct (namespaceList k).
Qed.

Lemma writeDRPCs_some (k : Client) (c : clusterInfo) (tr : list call) :
  writeDRPCs (Some k) (c, tr) =
    ((set_DRPCs (if c.(hub) then match drpcList k with Some d => d | None => [] end else []) c,
      tr ++ (if c.(hub) then [CallDRPCs] else [])), Some tt).
Proof.
  unfold writeDRPCs, getDRPCs; unfold_M; simpl.
  destruct (hub c); simpl; [| by rewrite app_nil_r]. by destruct (drpcList k).
Qed.

Lemma cluster_at_array (st : store) (s : slice) (i : nat) (arr : list clusterInfo) :
  (i < s_len s)%nat -> st !! s_ptr s = Some arr -> cluster_at st s i = arr !! i.
Proof.
  intros Hi Hst. unfold cluster_at. rewrite bool_decide_true by exact Hi.
  rewrite Hst. reflexivity.
Qed.

(** One statement run in place on [( *clusters)[i]]. *)
Lemma runAt_write (st : store) (s : slice) (i : nat) (arr : list clusterInfo)
  (c c' : clusterInfo) (act : M unit) (tr : list call) :
  (i < s_len s)%nat -> st !! s_ptr s = Some arr -> arr !! i = Some c ->
  act (c, []) = ((c', tr), Some tt) ->
  runAt st s i act = (<[s_ptr s := <[i := c']> arr]> st, true).
Proof.
  intros Hi Hst Harr Hact. unfold runAt.
  rewrite (cluster_at_array st s i arr Hi Hst), Harr, Hst, Hact. reflexivity.
Qed.

Lemma store_write_twice (st : store) (p i : nat) (arr : list clusterInfo)
  (c1 c2 : clusterInfo) :
  <[p := <[i := c2]> (<[i := c1]> arr)]> (<[p := <[i := c1]> arr]> st) =
  <[p := <[i := c2]> arr]> st.
Proof. rewrite list_insert_insert_eq. apply (insert_insert_eq (M := gmap nat)). Qed.

Section ThreadSteps.

Variable connect : string -> option Client.
Variable st : store.
Variable s : slice.
Variable i : nat.
Variable arr : list clusterInfo.
Variable c : clusterInfo.
Variable k : Client.
Hypothesis Hi : (i < s_len s)%nat.
Hypothesis Hst : st !! s_ptr s = Some arr.
Hypothesis Harr : arr !! i = Some c.

Lemma step_loop :
  connect c.(context) = Some k ->
  thread_step st {| th_connect := connect; th_clusters := s; th_pc := PcLoop i |} =
    (<[s_ptr s := <[i := c]> arr]> st,
     {| th_connect := connect; th_clusters := s; th_pc := PcStatus i (Some k) |}).
Proof.
  intros Hk. unfold thread_step. cbn [th_pc th_clusters th_connect].
  rewrite bool_decide_true by exact Hi.
  rewrite (cluster_at_array st s i arr Hi Hst), Harr.
  unfold fetchClusterClient. rewrite Hk.
  rewrite (runAt_write st s i arr c c (nilGuard (Some k)) [] Hi Hst Harr
             (nilGuard_some k c [])).
  reflexivity.
Qed.

Lemma step_status :
  thread_step st {| th_connect := connect; th_clusters := s; th_pc := PcStatus i (Some k) |} =
    (<[s_ptr s := <[i := set_status
                          (match nodeList k with Some _ => "Healthy" | None => "Error" end) c]>
                   arr]> st,
     {| th_connect := connect; th_clusters := s; th_pc := PcNamespaces i (Some k) |}).
Proof.
  unfold thread_step. cbn [th_pc th_clusters th_connect].
  rewrite (runAt_write st s i arr c _ (writeStatus (Some k)) _ Hi Hst Harr
             (writeStatus_some k c [])).
  reflexivity.
Qed.

Lemma step_namespaces :
  thread_step st {| th_connect := connect; th_clusters := s; th_pc := PcNamespaces i (Some k) |} =
    (<[s_ptr s := <[i := set_namespaces
                          (filterRamenNamespaces
                             (match namespaceList k with Some ns => ns | None => [] end)) c]>
                   arr]> st,
     {| th_connect := connect; th_clusters := s; th_pc := PcDRPCs i (Some k) |}).
Proof.
  unfold thread_step. cbn [th_pc th_clusters th_connect].
  rewrite (runAt_write st s i arr c _ (writeNamespaces (Some k)) _ Hi Hst Harr
             (writeNamespaces_some k c [])).
  reflexivity.
Qed.

Lemma step_drpcs :
  thread_step st {| th_connect := connect; th_clusters := s; th_pc := PcDRPCs i (Some k) |} =
    (<[s_ptr s := <[i := set_DRPCs
                          (if c.(hub) then match drpcList k with Some d => d | None => [] end
                           else []) c]>
                   arr]> st,
     {| th_connect := connect; th_clusters := s; th_pc := PcLoop (S i) |}).
Proof.
  unfold thread_step. cbn [th_pc th_clusters th_connect].
  rewrite (runAt_write st s i arr c _ (writeDRPCs (Some k)) _ Hi Hst Harr
             (writeDRPCs_some k c [])).
  reflexivity.
Qed.

End ThreadSteps.

Lemma run_alone_S (n : nat) (st st' : store) (th th' : thread) :
  thread_step st th = (st', th') -> run_alone (S n) st th = run_alone n st' th'.
Proof. intros H. simpl. rewrite H. reflexivity. Qed.

(** Run alone, the four statements of [updateClusterData] on
    [( *clusters)[i]] write the record of one poll of it. *)
Lemma thread_one_cluster (connect : string -> option Client) (st : store) (s : slice)
  (i : nat) (arr : list clusterInfo) (c c' : clusterInfo) (tr : list call) :
  (i < s_len s)%nat -> st !! s_ptr s = Some arr -> arr !! i = Some c ->
  poll connect c = ((c', tr), Some tt) ->
  run_alone 4 st {| th_connect := connect; th_clusters := s; th_pc := PcLoop i |} =
    (<[s_ptr s := <[i := c']> arr]> st,
     {| th_connect := connect; th_clusters := s; th_pc := PcLoop (S i) |}).
Proof.
  intros Hi Hst Harr Hpoll.
  destruct (connect c.(context)) as [k |] eqn:Hk;
    [| rewrite (poll_nil connect c Hk) in Hpoll; discriminate].
  rewrite (poll_connected connect c k Hk) in Hpoll.
  injection Hpoll as <- _.
  assert (Hlt : (i < length arr)%nat) by (apply lookup_lt_Some with c; exact Harr).
  assert (Hw : forall (st0 : store) (c0 : clusterInfo),
             <[s_ptr s := <[i := c0]> arr]> st0 !! s_ptr s = Some (<[i := c0]> arr))
    by (intros; apply lookup_insert_eq).
  assert (Hl : forall c0 : clusterInfo, <[i := c0]> arr !! i = Some c0)
    by (intros; apply list_lookup_insert_eq; exact Hlt).
  rewrite (run_alone_S _ _ _ _ _ (step_loop connect st s i arr c k Hi Hst Harr Hk)).
  rewrite (run_alone_S _ _ _ _ _ (step_status connect _ s i _ c k Hi (Hw st c) (Hl c))).
  rewrite store_write_twice.
  rewrite (run_alone_S _ _ _ _ _ (step_namespaces connect _ s i _ _ k Hi (Hw st _) (Hl _))).
  rewrite store_write_twice.
  rewrite (run_alone_S _ _ _ _ _ (step_drpcs connect _ s i _ _ k Hi (Hw st _) (Hl _))).
  rewrite store_write_twice. reflexivity.
Qed.

Lemma run_alone_add (n1 n2 : nat) (st : store) (th : thread) :
  run_alone (n1 + n2) st th = let '(st', th') := run_alone n1 st th in run_alone n2 st' th'.
Proof.
  revert st th. induction n1 as [| n1 IH]; intros st th; [reflexivity |].
  simpl. destruct (thread_step st th) as [st1 th1]. apply IH.
Qed.

(** Run alone from index [length pre], the goroutine polls each of the
    remaining records in turn and returns. *)
Lemma thread_suffix (connect : string -> option Client) (s : slice) :
  forall (suf suf' pre : list clusterInfo) (st : store),
    st !! s_ptr s = Some (pre ++ suf) ->
    s_len s = (length pre + length suf)%nat ->
    pollAll connect suf = Some suf' ->
    run_alone (4 * length suf + 1) st
      {| th_connect := connect; th_clusters := s; th_pc := PcLoop (length pre) |} =
      (<[s_ptr s := pre ++ suf']> st,
       {| th_connect := connect; th_clusters := s; th_pc := PcReturned |}).
Proof.
  induction suf as [| c rest IH]; intros suf' pre st Hst Hlen Hpoll.
  - injection Hpoll as <-. simpl. unfold thread_step. cbn [th_pc th_clusters].
    rewrite bool_decide_false by (simpl in Hlen; lia).
    rewrite app_nil_r, (insert_id (M := gmap nat)); [reflexivity | rewrite app_nil_r in Hst; exact Hst].
  - simpl in Hpoll.
    destruct (poll connect c) as [[c' tr] [u |]] eqn:Hc; [| discriminate].
    destruct u.
    destruct (pollAll connect rest) as [rest' |] eqn:Hrest; [| discriminate].
    injection Hpoll as <-.
    replace (4 * length (c :: rest) + 1)%nat with (4 + (4 * length rest + 1))%nat
      by (simpl; lia).
    rewrite run_alone_add.
    rewrite (thread_one_cluster connect st s (length pre) (pre ++ c :: rest) c c' tr);
      [| simpl in Hlen; lia | exact Hst | apply list_lookup_middle; reflexivity | exact Hc].
    replace (<[length pre := c']> (pre ++ c :: rest)) with ((pre ++ [c']) ++ rest)
      by (rewrite <- (Nat.add_0_r (length pre)), insert_app_r, <- app_assoc; reflexivity).
    replace (S (length pre)) with (length (pre ++ [c']))
      by (rewrite length_app; simpl; lia).
    rewrite (IH rest' (pre ++ [c'])).
    + rewrite <- app_assoc. simpl. f_equal.
      apply (insert_insert_eq (M := gmap nat)).
    + apply lookup_insert_eq.
    + rewrite length_app. simpl in Hlen |- *. lia.
    + reflexivity.
Qed.

Lemma pollAll_Forall2 (connect : string -> option Client) (arr arr' : list clusterInfo) :
  pollAll connect arr = Some arr' ->
  Forall2 (fun c c' => exists tr, poll connect c = ((c', tr), Some tt)) arr arr'.
Proof.
  revert arr'. induction arr as [| c rest IH]; intros arr' H.
  - injection H as <-. constructor.
  - simpl in H. destruct (poll connect c) as [[c' tr] [u |]] eqn:Hc; [| discriminate].
    destruct u. destruct (pollAll connect rest) as [rest' |] eqn:Hr; [| discriminate].
    injection H as <-. constructor; [exists tr; exact Hc | apply IH; reflexivity].
Qed.

(** C1 (amended): statuses are written in place, field by field, by the
    poll goroutine on the shared array; [Update] does not replace them (C9).
    When one poll goroutine runs with no other one overlapping it, it
    returns after writing, for each cluster, the record of that cluster's
    single poll in this attempt: status, namespaces and DRPCs all come from
    the same poll. *)
Theorem C1_single_batch_consistent (connect : string -> option Client) (st : store)
  (s : slice) (arr arr' : list clusterInfo) :
  st !! s_ptr s = Some arr ->
  s_len s = length arr ->
  pollAll connect arr = Some arr' ->
  run_alone (4 * length arr + 1) st (start_poll connect s) =
    (<[s_ptr s := arr']> st, set_pc PcReturned (start_poll connect s)) /\
  Forall2 (fun c c' => exists tr, poll connect c = ((c', tr), Some tt)) arr arr'.
Proof.
  intros Hst Hlen Hpoll. split; [| exact (pollAll_Forall2 connect arr arr' Hpoll)].
  exact (thread_suffix connect s arr arr' [] st Hst Hlen Hpoll).
Qed.

Lemma C1_single_batch_consistent_witness :
  st0 !! s_ptr s0 = Some (registry "hub.kubeconfig" "dr1.kubeconfig" "dr2.kubeconfig") /\
  run_alone 13 st0 (start_poll attemptA s0) =
    (<[s_ptr s0 := default [] (pollAll attemptA
                    (registry "hub.kubeconfig" "dr1.kubeconfig" "dr2.kubeconfig"))]> st0,
     set_pc PcReturned (start_poll attemptA s0)) /\
  Forall2 (fun c c' => exists tr, poll attemptA c = ((c', tr), Some tt))
    (registry "hub.kubeconfig" "dr1.kubeconfig" "dr2.kubeconfig")
    (default [] (pollAll attemptA
       (registry "hub.kubeconfig" "dr1.kubeconfig" "dr2.kubeconfig"))).
Proof.
  split; [reflexivity |].
  exact (C1_single_batch_consistent attemptA st0 s0
           (registry "hub.kubeconfig" "dr1.kubeconfig" "dr2.kubeconfig")
           (default [] (pollAll attemptA
              (registry "hub.kubeconfig" "dr1.kubeconfig" "dr2.kubeconfig")))
           eq_refl eq_refl eq_refl).
Defined.

(** C1 (counterexample): two poll goroutines overlap on the shared array
    (a tick fired while the previous poll was still running).  After both
    have returned and delivered their messages, the hub record holds the
    status of attempt B and the namespaces and DRPCs of attempt A: no
    single attempt produced it. *)
Lemma C1_overlap_mixes_fields :
  let hub0 := newClusterInfo "Hub" "hub.kubeconfig" true false in
  let '(st, ths) := run_sched overlap_sched st0
                      [start_poll attemptA s0; start_poll attemptB s0] in
  map thread_msg ths = [Some (MsgClustersPtr s0); Some (MsgClustersPtr s0)] /\
  cluster_at st s0 0 =
    Some (set_DRPCs ["drpc-a"] (set_namespaces ["ramen-system"]
            (set_status "Error" hub0))) /\
  (poll attemptA hub0).1.1.(status) = "Healthy" /\
  (poll attemptB hub0).1.1.(namespaces) = [] /\
  (forall connect, connect = attemptA \/ connect = attemptB ->
     cluster_at st s0 0 <> Some (poll connect hub0).1.1).
Proof.
  vm_compute. split; [reflexivity |]. split; [reflexivity |].
  split; [reflexivity |]. split; [reflexivity |].
  intros connect [-> | ->]; vm_compute; congruence.
Qed.

(* ================================================================== *)
(** * Further properties of the code *)

(** ** Namespace filtering *)

(** Filtering a listing split in two pages is filtering each page. *)
Theorem filterRamenNamespaces_app (l1 l2 : list string) :
  filterRamenNamespaces (l1 ++ l2) = filterRamenNamespaces l1 ++ filterRamenNamespaces l2.
Proof.
  induction l1 as [| n rest IH]; [reflexivity |].
  simpl. destruct (isRamenNamespace n); [rewrite IH |]; auto.
Qed.

(** Filtering is idempotent: every kept name is in the allow-set. *)
Theorem filterRamenNamespaces_idem (l : list string) :
  filterRamenNamespaces (filterRamenNamespaces l) = filterRamenNamespaces l.
Proof.
  induction l as [| n rest IH]; [reflexivity |].
  simpl. destruct (isRamenNamespace n) eqn:E; [| exact IH].
  simpl. rewrite E, IH. reflexivity.
Qed.

Lemma isRamenNamespace_main_spec (n : string) :
  isRamenNamespace_main n =
  isRamenNamespace n && negb (bool_decide (n = "openshift-dr-ops")).
Proof.
  unfold isRamenNamespace_main, isRamenNamespace.
  destruct (decide (n = "openshift-dr-ops")) as [-> | Hne]; [reflexivity |].
  rewrite (bool_decide_false (n = "openshift-dr-ops")) by exact Hne.
  simpl. rewrite orb_false_r, andb_true_r. reflexivity.
Qed.

Lemma filterRamenNamespaces_main_filter (l : list string) :
  filterRamenNamespaces_main l =
  filter (fun n => n <> "openshift-dr-ops") (filterRamenNamespaces l).
Proof.
  induction l as [| n rest IH]; [reflexivity |].
  simpl. rewrite isRamenNamespace_main_spec.
  destruct (isRamenNamespace n); simpl; [| exact IH].
  rewrite filter_cons. destruct (decide (n = "openshift-dr-ops")) as [-> | Hne].
  - rewrite decide_False by (intros H; apply H; reflexivity). exact IH.
  - rewrite (bool_decide_false _ Hne), decide_True by exact Hne. simpl. f_equal. exact IH.
Qed.

(** The filter of src/main.go keeps what the filter of part_000 keeps,
    except "openshift-dr-ops". *)
Theorem filterRamenNamespaces_main_drops_dr_ops (l : list string) :
  filterRamenNamespaces_main l =
  filter (fun n => n <> "openshift-dr-ops") (filterRamenNamespaces l).
Proof. apply filterRamenNamespaces_main_filter. Qed.

(** ** [Update] *)

(** The commands [Update] starts: a poll of the model's own slice and the
    next tick for a tick, [tea.Quit] for "q" and "ctrl+c", nothing for any
    other message. *)
Theorem Update_cmds (m : model) (ms : msg) :
  cmds_of (Update m ms).2 =
    if is_time ms then [CmdUpdateClusters m.(clusters); CmdTick]
    else if is_quit_key ms then [CmdQuit] else [].
Proof.
  destruct ms as [s | s | w h | k | t | |]; try reflexivity. simpl.
  destruct (bool_decide (k = "ctrl+c") || bool_decide (k = "q")); [reflexivity |].
  destruct (bool_decide (k = "up") || bool_decide (k = "k")).
  - destruct (0 <? cursor m); reflexivity.
  - destruct (bool_decide (k = "down") || bool_decide (k = "j")); [| reflexivity].
    destruct (cursor m <? Z.of_nat (s_len (clusters m)) - 1); reflexivity.
Qed.

(** Over any sequence of messages, the tick chain re-arms once per tick:
    as many ticks and polls are started as tick messages were handled, and
    one [tea.Quit] per quit key. *)
Theorem run_updates_counts (m : model) (msgs : list msg) :
  length (filter (fun c => is_tick c = true) (run_updates m msgs).2) =
    length (filter (fun ms => is_time ms = true) msgs) /\
  length (filter (fun c => is_poll c = true) (run_updates m msgs).2) =
    length (filter (fun ms => is_time ms = true) msgs) /\
  length (filter (fun c => is_quit c = true) (run_updates m msgs).2) =
    length (filter (fun ms => is_quit_key ms = true) msgs).
Proof.
  revert m. induction msgs as [| ms rest IH]; intros m; [split; [| split]; reflexivity |].
  simpl. pose proof (Update_cmds m ms) as Hc.
  destruct (Update m ms) as [m1 oc] eqn:E.
  destruct (run_updates m1 rest) as [m2 cs] eqn:E2. simpl in Hc |- *.
  destruct (IH m1) as (H1 & H2 & H3). rewrite E2 in H1, H2, H3. simpl in H1, H2, H3.
  rewrite Hc, !filter_app, !length_app, H1, H2, H3.
  assert (Hx : is_time ms = true -> is_quit_key ms = false)
    by (destruct ms; simpl; congruence).
  destruct (is_time ms) eqn:Et; [pose proof (Hx eq_refl) | destruct (is_quit_key ms) eqn:Eq];
    repeat (rewrite filter_cons || rewrite filter_nil);
    repeat case_decide; simpl in *; try congruence; lia.
Qed.

(** Only a [[]clusterInfo] message changes the model's slice header, and
    only a window-size message changes the width and height. *)
Theorem Update_frame (m : model) (ms : msg) :
  ((forall s, ms <> MsgClusters s) -> (Update m ms).1.(clusters) = m.(clusters)) /\
  ((forall w h, ms <> MsgWindowSize w h) ->
     (Update m ms).1.(width) = m.(width) /\ (Update m ms).1.(height) = m.(height)).
Proof.
  destruct ms as [s | s | w h | k | t | |]; simpl;
    try (split; intros; [reflexivity | split; reflexivity]).
  - split; intros H; [exfalso; exact (H s eq_refl) | split; reflexivity].
  - split; intros H; [reflexivity | exfalso; exact (H w h eq_refl)].
  - destruct (bool_decide (k = "ctrl+c") || bool_decide (k = "q"));
      [split; intros; [reflexivity | split; reflexivity] |].
    destruct (bool_decide (k = "up") || bool_decide (k = "k")).
    + destruct (0 <? cursor m); split; intros; try split; reflexivity.
    + destruct (bool_decide (k = "down") || bool_decide (k = "j"));
        [| split; intros; try split; reflexivity].
      destruct (cursor m <? Z.of_nat (s_len (clusters m)) - 1);
        split; intros; try split; reflexivity.
Qed.

(** Moving down then up from a cursor that is not on the last cluster
    gives back the same model. *)
Theorem cursor_down_up (m : model) :
  0 <= m.(cursor) < Z.of_nat (s_len m.(clusters)) - 1 ->
  (Update (Update m (MsgKey "down")).1 (MsgKey "up")).1 = m.
Proof.
  intros [H0 H1]. simpl.
  replace (m.(cursor) <? Z.of_nat (s_len (clusters m)) - 1) with true
    by (symmetry; apply Z.ltb_lt; exact H1).
  simpl. replace (0 <? cursor m + 1) with true by (symmetry; apply Z.ltb_lt; lia).
  destruct m as [cl cu w h]; unfold set_cursor; simpl. f_equal. lia.
Qed.

Lemma cursor_down_up_witness :
  0 <= m0.(cursor) < Z.of_nat (s_len m0.(clusters)) - 1 /\
  (Update (Update m0 (MsgKey "down")).1 (MsgKey "up")).1 = m0.
Proof.
  assert (H : 0 <= m0.(cursor) < Z.of_nat (s_len m0.(clusters)) - 1)
    by (unfold m0, initialModel; simpl; lia).
  exact (conj H (cursor_down_up m0 H)).
Defined.

(** A key outside "ctrl+c", "q", "up", "k", "down", "j" changes nothing
    and starts nothing. *)
Theorem Update_other_key (m : model) (k : string) :
  k ∉ ["ctrl+c"; "q"; "up"; "k"; "down"; "j"] ->
  Update m (MsgKey k) = (m, None).
Proof.
  intros Hk. simpl.
  rewrite !elem_of_cons, elem_of_nil in Hk.
  repeat rewrite bool_decide_false by (intros ->; apply Hk; tauto).
  reflexivity.
Qed.

Lemma Update_other_key_witness :
  ("x" ∉ ["ctrl+c"; "q"; "up"; "k"; "down"; "j"]) /\
  Update m0 (MsgKey "x") = (m0, None).
Proof.
  assert (H : "x" ∉ ["ctrl+c"; "q"; "up"; "k"; "down"; "j"]) by (intros Hs; repeat (inversion Hs as [| ? ? ? Hs']; subst; clear Hs;
                                 rename Hs' into Hs)).
  exact (conj H (Update_other_key m0 "x" H)).
Defined.

(** ** The poll and the shared array *)

(** A secondary cluster's poll never issues the DRPC listing, whether or
    not its client could be built. *)
Theorem poll_secondary_no_drpc_call (connect : string -> option Client) (c : clusterInfo) :
  c.(hub) = false -> CallDRPCs ∉ (poll connect c).1.2.
Proof.
  intros Hh. destruct (connect c.(context)) as [k |] eqn:Hk.
  - rewrite (poll_connected connect c k Hk), Hh. simpl.
    rewrite !elem_of_cons, elem_of_nil. intros [H | [H | H]]; [discriminate | discriminate | exact H].
  - rewrite (poll_nil connect c Hk). simpl.
    rewrite !elem_of_cons, elem_of_nil. intros [H | H]; [discriminate | exact H].
Qed.

Lemma poll_secondary_no_drpc_call_witness :
  (newClusterInfo "DR2" "dr2.kubeconfig" false true).(hub) = false /\
  CallDRPCs ∉ (poll attemptA (newClusterInfo "DR2" "dr2.kubeconfig" false true)).1.2.
Proof.
  exact (conj eq_refl (poll_secondary_no_drpc_call attemptA
                         (newClusterInfo "DR2" "dr2.kubeconfig" false true) eq_refl)).
Defined.

Ltac solve_identity :=
  intros; unfold_poll; simpl;
  repeat match goal with
         | k : option Client |- _ => destruct k
         | |- context [nodeList ?k] => destruct (nodeList k)
         | |- context [namespaceList ?k] => destruct (namespaceList k)
         | |- context [drpcList ?k] => destruct (drpcList k)
         | |- context [hub ?c] => destruct (hub c)
         end; reflexivity.

Lemma nilGuard_identity (k : option Client) (c : clusterInfo) (tr : list call) :
  identity (nilGuard k (c, tr)).1.1 = identity c.
Proof. solve_identity. Qed.

Lemma writeStatus_identity (k : option Client) (c : clusterInfo) (tr : list call) :
  identity (writeStatus k (c, tr)).1.1 = identity c.
Proof. solve_identity. Qed.

Lemma writeNamespaces_identity (k : option Client) (c : clusterInfo) (tr : list call) :
  identity (writeNamespaces k (c, tr)).1.1 = identity c.
Proof. solve_identity. Qed.

Lemma writeDRPCs_identity (k : option Client) (c : clusterInfo) (tr : list call) :
  identity (writeDRPCs k (c, tr)).1.1 = identity c.
Proof. solve_identity. Qed.

(** A poll never writes the name, kubeconfig, hub or managed-cluster
    fields of a record, even when it panics. *)
Theorem poll_keeps_identity (connect : string -> option Client) (c : clusterInfo) :
  identity (poll connect c).1.1 = identity c.
Proof.
  destruct (connect c.(context)) as [k |] eqn:Hk.
  - rewrite (poll_connected connect c k Hk). reflexivity.
  - rewrite (poll_nil connect c Hk). reflexivity.
Qed.

Lemma runAt_shape (st : store) (s : slice) (i : nat) (act : M unit) (p : nat) :
  (forall c tr, identity (act (c, tr)).1.1 = identity c) ->
  shape (runAt st s i act).1 p = shape st p.
Proof.
  intros Hact. unfold runAt.
  destruct (cluster_at st s i) as [c |] eqn:Hc; [| reflexivity].
  destruct (st !! s_ptr s) as [arr |] eqn:Ha; [| reflexivity].
  destruct (act (c, [])) as [[c' tr] r] eqn:E. simpl.
  assert (Hi : arr !! i = Some c).
  { unfold cluster_at in Hc. rewrite Ha in Hc.
    destruct (bool_decide (i < s_len s)%nat); [exact Hc | discriminate]. }
  assert (Hid : identity c' = identity c)
    by (pose proof (Hact c []) as H; rewrite E in H; exact H).
  unfold shape. destruct (decide (p = s_ptr s)) as [-> | Hne].
  - rewrite lookup_insert_eq, Ha. simpl. f_equal.
    rewrite list_fmap_insert, Hid. apply list_insert_id.
    rewrite list_lookup_fmap, Hi. reflexivity.
  - rewrite lookup_insert_ne by (intros H; apply Hne; symmetry; exact H). reflexivity.
Qed.

Lemma thread_step_shape (st : store) (th : thread) (p : nat) :
  shape (thread_step st th).1 p = shape st p.
Proof.
  unfold thread_step.
  destruct (th_pc th) as [i | i k | i k | i k | |]; try reflexivity;
    [destruct (bool_decide (i < s_len (th_clusters th))%nat); [| reflexivity];
     destruct (cluster_at st (th_clusters th) i) as [c |]; [| reflexivity] | | |];
    match goal with
    | |- context [runAt ?st ?s ?i ?A] =>
        destruct (runAt st s i A) as [st' ok] eqn:E; simpl;
        rewrite <- (runAt_shape st s i A p), E; [reflexivity |]
    end;
    [apply nilGuard_identity | apply writeStatus_identity
    | apply writeNamespaces_identity | apply writeDRPCs_identity].
Qed.

(** However several poll goroutines interleave on the store, every array
    keeps its length and the identity fields of its records. *)
Theorem run_sched_shape (sched : list nat) (st : store) (ths : list thread) (p : nat) :
  shape (run_sched sched st ths).1 p = shape st p.
Proof.
  revert st ths. induction sched as [| j rest IH]; intros st ths; [reflexivity |].
  simpl. destruct (ths !! j) as [th |]; [| apply IH].
  pose proof (thread_step_shape st th p) as H.
  destruct (thread_step st th) as [st' th']. simpl in H. rewrite IH. exact H.
Qed.

(** ** [View] *)

(** [View] returns (does not panic) exactly when the slice header has at
    least three elements and the array it points to holds at least three
    records. *)
Theorem View_defined_iff (renderBox : list string -> Z -> Z -> string)
  (joinVertical joinHorizontal : list string -> string) (st : store) (m : model) :
  is_Some (View renderBox joinVertical joinHorizontal st m) <->
  (3 <= s_len m.(clusters))%nat /\
  exists arr, st !! s_ptr m.(clusters) = Some arr /\ (3 <= length arr)%nat.
Proof.
  unfold View, cluster_at.
  destruct (st !! s_ptr (clusters m)) as [arr |] eqn:Ha.
  - destruct (s_len (clusters m)) as [| [| [| n]]];
      repeat (rewrite bool_decide_true by lia || rewrite bool_decide_false by lia);
      simpl;
      (destruct arr as [| a0 [| a1 [| a2 rest]]]; simpl;
       (split;
        [ intros [x Hx]; first [discriminate | split; [lia | eexists; split; [reflexivity | simpl; lia]]]
        | intros (Hl & arr' & Harr & Hlen); injection Harr as <-; simpl in Hlen;
          try lia; eexists; reflexivity ])).
  - destruct (s_len (clusters m)) as [| [| [| n]]];
      repeat (rewrite bool_decide_true by lia || rewrite bool_decide_false by lia);
      simpl; split;
      (intros [x Hx]; discriminate) ||
      (intros (Hl & arr' & Harr & Hlen); try lia; discriminate).
Qed.

Lemma shape_length (st : store) (p : nat) (l : list (string * string * bool * bool)) :
  shape st p = Some l -> exists arr, st !! p = Some arr /\ length arr = length l.
Proof.
  unfold shape. destruct (st !! p) as [arr |]; simpl; [| discriminate].
  intros H. injection H as <-. exists arr. split; [reflexivity | symmetry; apply length_fmap].
Qed.

(** Starting from [initialModel], no interleaving of poll goroutines, at
    any point, makes [View] panic on the model's header. *)
Theorem View_defined_after_polls (renderBox : list string -> Z -> Z -> string)
  (joinVertical joinHorizontal : list string -> string)
  (hubcfg dr1cfg dr2cfg : string) (sched : list nat) (ths : list thread) (m : model) :
  m.(clusters) = (initialModel hubcfg dr1cfg dr2cfg).2.(clusters) ->
  is_Some (View renderBox joinVertical joinHorizontal
             (run_sched sched (initialModel hubcfg dr1cfg dr2cfg).1 ths).1 m).
Proof.
  intros Hm. apply View_defined_iff. rewrite Hm. simpl. split; [lia |].
  destruct (shape_length (run_sched sched {[clusters_addr := registry hubcfg dr1cfg dr2cfg]} ths).1
              clusters_addr
              (identity <$> registry hubcfg dr1cfg dr2cfg)) as (arr & Harr & Hlen).
  - rewrite run_sched_shape. unfold shape. rewrite lookup_singleton_eq. reflexivity.
  - exists arr. split; [exact Harr | rewrite Hlen; simpl; lia].
Qed.

Lemma View_defined_after_polls_witness :
  m0.(clusters) = (initialModel "hub.kubeconfig" "dr1.kubeconfig" "dr2.kubeconfig").2.(clusters) /\
  is_Some (View (fun _ _ _ => "") (fun _ => "") (fun _ => "")
             (run_sched overlap_sched (initialModel "hub.kubeconfig" "dr1.kubeconfig" "dr2.kubeconfig").1
                [start_poll attemptA s0; start_poll attemptB s0]).1 m0).
Proof.
  exact (conj eq_refl
           (View_defined_after_polls (fun _ _ _ => "") (fun _ => "") (fun _ => "")
              "hub.kubeconfig" "dr1.kubeconfig" "dr2.kubeconfig" overlap_sched
              [start_poll attemptA s0; start_poll attemptB s0] m0 eq_refl)).
Defined.

(** [View] reads only the name, status and namespaces of the three
    records, and the DRPCs of the first (hub) one: two stores that agree on
    these render the same screen. *)
Theorem View_displayed_fields (renderBox : list string -> Z -> Z -> string)
  (joinVertical joinHorizontal : list string -> string) (st st' : store) (m : model)
  (a0 a1 a2 b0 b1 b2 : clusterInfo) :
  cluster_at st m.(clusters) 0 = Some a0 ->
  cluster_at st m.(clusters) 1 = Some a1 ->
  cluster_at st m.(clusters) 2 = Some a2 ->
  cluster_at st' m.(clusters) 0 = Some b0 ->
  cluster_at st' m.(clusters) 1 = Some b1 ->
  cluster_at st' m.(clusters) 2 = Some b2 ->
  same_display true a0 b0 -> same_display false a1 b1 -> same_display false a2 b2 ->
  View renderBox joinVertical joinHorizontal st m =
  View renderBox joinVertical joinHorizontal st' m.
Proof.
  intros H0 H1 H2 H0' H1' H2' (En0 & Es0 & Ens0 & Ed0) (En1 & Es1 & Ens1 & _)
    (En2 & Es2 & Ens2 & _).
  unfold View. rewrite H0, H1, H2, H0', H1', H2'. simpl.
  unfold getHubStyle, getManagedClusterStyle.
  rewrite En0, Es0, Ens0, (Ed0 eq_refl), En1, Es1, Ens1, En2, Es2, Ens2.
  reflexivity.
Qed.

Lemma View_displayed_fields_witness :
  View (fun _ _ _ => "") (fun _ => "") (fun _ => "") st0 m0 =
  View (fun _ _ _ => "") (fun _ => "") (fun _ => "") st0_redrawn m0.
Proof.
  apply (View_displayed_fields (fun _ _ _ => "") (fun _ => "") (fun _ => "") st0 st0_redrawn m0
           (newClusterInfo "Hub" "hub.kubeconfig" true false)
           (newClusterInfo "DR1" "dr1.kubeconfig" false true)
           (newClusterInfo "DR2" "dr2.kubeconfig" false true)
           (newClusterInfo "Hub" "hub.kubeconfig" true false)
           (newClusterInfo "DR1" "other-dr1.kubeconfig" false true)
           (newClusterInfo "DR2" "dr2.kubeconfig" false true));
    try reflexivity;
    (split; [reflexivity | split; [reflexivity | split; [reflexivity | intros; reflexivity]]]).
Defined.

(** ** A nil client aborts the batch *)

Lemma pollAll_length (connect : string -> option Client) (arr arr' : list clusterInfo) :
  pollAll connect arr = Some arr' -> length arr' = length arr.
Proof. intros H. symmetry. apply (Forall2_length _ _ _ (pollAll_Forall2 connect arr arr' H)). Qed.

(** Run alone from index [length pre], the goroutine polls the records of
    [mid] in turn, leaving those after them untouched. *)
Lemma thread_middle (connect : string -> option Client) (s : slice) :
  forall (mid mid' pre rest : list clusterInfo) (st : store),
    st !! s_ptr s = Some (pre ++ mid ++ rest) ->
    s_len s = (length pre + length mid + length rest)%nat ->
    pollAll connect mid = Some mid' ->
    run_alone (4 * length mid) st
      {| th_connect := connect; th_clusters := s; th_pc := PcLoop (length pre) |} =
      (<[s_ptr s := pre ++ mid' ++ rest]> st,
       {| th_connect := connect; th_clusters := s;
          th_pc := PcLoop (length pre + length mid) |}).
Proof.
  induction mid as [| c mid IH]; intros mid' pre rest st Hst Hlen Hpoll.
  - injection Hpoll as <-. simpl. rewrite Nat.add_0_r.
    rewrite (insert_id (M := gmap nat)); [reflexivity | exact Hst].
  - simpl in Hpoll.
    destruct (poll connect c) as [[c' tr] [u |]] eqn:Hc; [| discriminate].
    destruct u.
    destruct (pollAll connect mid) as [mid1 |] eqn:Hmid; [| discriminate].
    injection Hpoll as <-.
    replace (4 * length (c :: mid))%nat with (4 + 4 * length mid)%nat by (simpl; lia).
    rewrite run_alone_add.
    rewrite (thread_one_cluster connect st s (length pre) (pre ++ c :: mid ++ rest) c c' tr);
      [| simpl in Hlen; lia | exact Hst | apply list_lookup_middle; reflexivity | exact Hc].
    replace (<[length pre := c']> (pre ++ c :: mid ++ rest)) with ((pre ++ [c']) ++ mid ++ rest)
      by (rewrite <- (Nat.add_0_r (length pre)), insert_app_r, <- app_assoc; reflexivity).
    replace (S (length pre)) with (length (pre ++ [c']))
      by (rewrite length_app; simpl; lia).
    rewrite (IH mid1 (pre ++ [c']) rest).
    + rewrite <- !app_assoc, length_app. simpl. f_equal.
      * apply (insert_insert_eq (M := gmap nat)).
      * f_equal. f_equal. lia.
    + apply lookup_insert_eq.
    + rewrite length_app. simpl in Hlen |- *. lia.
    + reflexivity.
Qed.

Lemma run_alone_panicked (n : nat) (st : store) (th : thread) :
  th.(th_pc) = PcPanicked -> run_alone n st th = (st, th).
Proof.
  intros Hp. induction n as [| n IH]; [reflexivity |].
  simpl. unfold thread_step at 1. rewrite Hp. exact IH.
Qed.

Lemma thread_nil_client (connect : string -> option Client) (st : store) (s : slice)
  (pre pre' rest : list clusterInfo) (c : clusterInfo) :
  st !! s_ptr s = Some (pre ++ c :: rest) ->
  s_len s = length (pre ++ c :: rest) ->
  pollAll connect pre = Some pre' ->
  connect c.(context) = None ->
  forall n, (4 * length pre + 2 <= n)%nat ->
  run_alone n st (start_poll connect s) =
    (<[s_ptr s := pre' ++ set_namespaces [] (set_status "Error" c) :: rest]> st,
     set_pc PcPanicked (start_poll connect s)) /\
  thread_msg (run_alone n st (start_poll connect s)).2 = None.
Proof.
  intros Hst Hlen Hpre Hk n Hn.
  assert (Hrun : run_alone n st (start_poll connect s) =
    (<[s_ptr s := pre' ++ set_namespaces [] (set_status "Error" c) :: rest]> st,
     set_pc PcPanicked (start_poll connect s))).
  { replace n with (4 * length pre + (2 + (n - (4 * length pre + 2))))%nat by lia.
    rewrite run_alone_add. unfold start_poll.
    change (PcLoop 0) with (PcLoop (length (@nil clusterInfo))).
    rewrite (thread_middle connect s pre pre' [] (c :: rest) st);
      [| exact Hst | rewrite length_app in Hlen; simpl in Hlen |- *; lia | exact Hpre].
    cbv beta iota.
    change (length (@nil clusterInfo) + length pre)%nat with (length pre).
    rewrite <- (pollAll_length connect pre pre' Hpre).
    rewrite app_nil_l.
    remember (n - (4 * length pre' + 2))%nat as k eqn:Ek.
    change (2 + k)%nat with (S (S k)).
    set (arr1 := pre' ++ c :: rest).
    set (st1 := <[s_ptr s := arr1]> st).
    set (c1 := set_namespaces [] (set_status "Error" c)).
    assert (Hst1 : st1 !! s_ptr s = Some arr1) by apply lookup_insert_eq.
    assert (Hl1 : (length pre' < s_len s)%nat).
    { rewrite (pollAll_length connect pre pre' Hpre), Hlen, length_app. simpl. lia. }
    assert (Hc1 : arr1 !! length pre' = Some c)
      by (apply list_lookup_middle; reflexivity).
    assert (Hlt : (length pre' < length arr1)%nat)
      by (unfold arr1; rewrite length_app; simpl; lia).
    set (st2 := <[s_ptr s := <[length pre' := c1]> arr1]> st1).
    assert (Hs1 : thread_step st1
                    {| th_connect := connect; th_clusters := s; th_pc := PcLoop (length pre') |} =
                  (st2, {| th_connect := connect; th_clusters := s;
                           th_pc := PcStatus (length pre') None |})).
    { unfold thread_step. cbn [th_pc th_clusters th_connect].
      rewrite bool_decide_true by exact Hl1.
      rewrite (cluster_at_array st1 s _ _ Hl1 Hst1), Hc1.
      unfold fetchClusterClient. rewrite Hk.
      rewrite (runAt_write st1 s (length pre') arr1 c c1 (nilGuard None) []
                 Hl1 Hst1 Hc1) by (unfold_poll; reflexivity).
      reflexivity. }
    assert (Hs2 : thread_step st2
                    {| th_connect := connect; th_clusters := s;
                       th_pc := PcStatus (length pre') None |} =
                  (<[s_ptr s := <[length pre' := c1]> (<[length pre' := c1]> arr1)]> st2,
                   {| th_connect := connect; th_clusters := s; th_pc := PcPanicked |})).
    { unfold thread_step. cbn [th_pc th_clusters th_connect]. unfold runAt.
      assert (Hst2 : st2 !! s_ptr s = Some (<[length pre' := c1]> arr1))
        by apply lookup_insert_eq.
      rewrite (cluster_at_array _ s _ _ Hl1 Hst2), Hst2, list_lookup_insert_eq by exact Hlt.
      assert (Hw : writeStatus None (c1, []) = ((c1, [CallNodes]), None))
        by (unfold_poll; reflexivity).
      rewrite Hw. rewrite bool_decide_false by discriminate. reflexivity. }
    rewrite (run_alone_S _ _ _ _ _ Hs1), (run_alone_S _ _ _ _ _ Hs2).
    rewrite run_alone_panicked by reflexivity.
    unfold st2, st1. rewrite store_write_twice.
    rewrite (insert_insert_eq (M := gmap nat)).
    unfold arr1. rewrite <- (Nat.add_0_r (length pre')), insert_app_r. reflexivity. }
  split; [exact Hrun | rewrite Hrun; reflexivity].
Qed.

(** When the client of a record cannot be built, the goroutine polls the
    records before it, marks that record "Error" with no namespaces, and
    panics on [client.CoreV1()] in [getClusterStatus]: the records after it
    are never polled and no message is delivered, however long it runs. *)
Theorem nil_client_aborts_batch (connect : string -> option Client) (st : store) (s : slice)
  (pre pre' rest : list clusterInfo) (c : clusterInfo) :
  st !! s_ptr s = Some (pre ++ c :: rest) ->
  s_len s = length (pre ++ c :: rest) ->
  pollAll connect pre = Some pre' ->
  connect c.(context) = None ->
  forall n, (4 * length pre + 2 <= n)%nat ->
  run_alone n st (start_poll connect s) =
    (<[s_ptr s := pre' ++ set_namespaces [] (set_status "Error" c) :: rest]> st,
     set_pc PcPanicked (start_poll connect s)) /\
  thread_msg (run_alone n st (start_poll connect s)).2 = None.
Proof. exact (thread_nil_client connect st s pre pre' rest c). Qed.

Lemma nil_client_aborts_batch_witness :
  run_alone 6 st0 (start_poll (fun cfg => if bool_decide (cfg = "dr1.kubeconfig") then None
                                          else attemptA cfg) s0) =
    (<[s_ptr s0 := (poll attemptA (newClusterInfo "Hub" "hub.kubeconfig" true false)).1.1
                  :: set_namespaces [] (set_status "Error"
                                         (newClusterInfo "DR1" "dr1.kubeconfig" false true))
                  :: [newClusterInfo "DR2" "dr2.kubeconfig" false true]]> st0,
     set_pc PcPanicked (start_poll (fun cfg => if bool_decide (cfg = "dr1.kubeconfig") then None
                                               else attemptA cfg) s0)) /\
  thread_msg (run_alone 6 st0 (start_poll (fun cfg => if bool_decide (cfg = "dr1.kubeconfig")
                                                      then None else attemptA cfg) s0)).2 = None.
Proof.
  exact (nil_client_aborts_batch
           (fun cfg => if bool_decide (cfg = "dr1.kubeconfig") then None else attemptA cfg)
           st0 s0
           [newClusterInfo "Hub" "hub.kubeconfig" true false]
           [(poll attemptA (newClusterInfo "Hub" "hub.kubeconfig" true false)).1.1]
           [newClusterInfo "DR2" "dr2.kubeconfig" false true]
           (newClusterInfo "DR1" "dr1.kubeconfig" false true)
           eq_refl eq_refl eq_refl eq_refl 6 (le_n 6)).
Defined.

(** ** The outcome of one poll *)

(** [updateClusterData] panics exactly when the cluster's client cannot be
    built; every remote error is absorbed. *)
Theorem poll_panics_iff_nil_client (connect : string -> option Client) (c : clusterInfo) :
  (poll connect c).2 = None <-> connect c.(context) = None.
Proof.
  destruct (connect c.(context)) as [k |] eqn:Hk.
  - rewrite (poll_connected connect c k Hk). split; discriminate.
  - rewrite (poll_nil connect c Hk). split; reflexivity.
Qed.

(** After a poll, returned or panicked, the status is "Healthy" or
    "Error": the initial "Unknown" never survives it. *)
Theorem poll_status_values (connect : string -> option Client) (c : clusterInfo) :
  (poll connect c).1.1.(status) = "Healthy" \/ (poll connect c).1.1.(status) = "Error".
Proof.
  destruct (connect c.(context)) as [k |] eqn:Hk.
  - rewrite (poll_connected connect c k Hk). simpl.
    destruct (nodeList k); [left | right]; reflexivity.
  - rewrite (poll_nil connect c Hk). right. reflexivity.
Qed.

(** A hub poll with a client lists nodes, namespaces and DRPCs, once
    each, in that order. *)
Theorem hub_poll_call_order (connect : string -> option Client) (c : clusterInfo) (k : Client) :
  c.(hub) = true -> connect c.(context) = Some k ->
  (poll connect c).1.2 = [CallNodes; CallNamespaces; CallDRPCs].
Proof.
  intros Hh Hk. rewrite (poll_connected connect c k Hk), Hh. reflexivity.
Qed.

Lemma hub_poll_call_order_witness :
  (newClusterInfo "Hub" "hub.kubeconfig" true false).(hub) = true /\
  attemptB (newClusterInfo "Hub" "hub.kubeconfig" true false).(context) =
    Some {| nodeList := None; namespaceList := Some ["default"]; drpcList := Some [] |} /\
  (poll attemptB (newClusterInfo "Hub" "hub.kubeconfig" true false)).1.2 =
    [CallNodes; CallNamespaces; CallDRPCs].
Proof.
  exact (conj eq_refl (conj eq_refl
    (hub_poll_call_order attemptB (newClusterInfo "Hub" "hub.kubeconfig" true false)
       {| nodeList := None; namespaceList := Some ["default"]; drpcList := Some [] |}
       eq_refl eq_refl))).
Defined.

Lemma poll_None_nil (connect : string -> option Client) (c : clusterInfo) :
  (poll connect c).2 = None -> connect c.(context) = None.
Proof.
  destruct (connect c.(context)) as [k |] eqn:Hk; [| reflexivity].
  rewrite (poll_connected connect c k Hk). discriminate.
Qed.

Lemma pollAll_None (connect : string -> option Client) (arr : list clusterInfo) :
  pollAll connect arr = None ->
  exists pre pre' c rest, arr = pre ++ c :: rest /\ pollAll connect pre = Some pre' /\
                          connect c.(context) = None.
Proof.
  induction arr as [| c rest IH]; simpl; [discriminate |].
  destruct (poll connect c) as [[c' tr] [u |]] eqn:Hc.
  - destruct (pollAll connect rest) as [r |] eqn:Hr; [discriminate |].
    intros _. destruct (IH eq_refl) as (pre & pre' & c0 & rest0 & -> & Hpre & Hk).
    exists (c :: pre), (c' :: pre'), c0, rest0. split; [reflexivity |]. split; [| exact Hk].
    simpl. rewrite Hc, Hpre. reflexivity.
  - intros _. exists [], [], c, rest. split; [reflexivity |]. split; [reflexivity |].
    apply poll_None_nil. rewrite Hc. reflexivity.
Qed.

Lemma pollAll_Some_clients (connect : string -> option Client) (arr arr' : list clusterInfo) :
  pollAll connect arr = Some arr' -> Forall (fun c => connect c.(context) <> None) arr.
Proof.
  intros H. apply pollAll_Forall2 in H.
  induction H as [| c c' arr arr' [tr Hc] _ IH]; constructor; [| exact IH].
  intros Hk. rewrite (poll_nil connect c Hk) in Hc. discriminate.
Qed.

(** Run alone on an array of [n] records, a poll goroutine has finished
    after [4 n + 1] steps: it has returned, delivering its message, when
    every cluster's client can be built, and has panicked otherwise. *)
Theorem lone_poll_finishes (connect : string -> option Client) (st : store) (s : slice)
  (arr : list clusterInfo) :
  st !! s_ptr s = Some arr -> s_len s = length arr ->
  let th := (run_alone (4 * length arr + 1) st (start_poll connect s)).2 in
  (th.(th_pc) = PcReturned <-> Forall (fun c => connect c.(context) <> None) arr) /\
  (th.(th_pc) = PcReturned \/ th.(th_pc) = PcPanicked).
Proof.
  intros Hst Hlen th. subst th.
  destruct (pollAll connect arr) as [arr' |] eqn:Hp.
  - unfold start_poll. change (PcLoop 0) with (PcLoop (length (@nil clusterInfo))).
    rewrite (thread_suffix connect s arr arr' [] st Hst Hlen Hp). simpl.
    split; [| left; reflexivity].
    split; [intros _; exact (pollAll_Some_clients connect arr arr' Hp) | reflexivity].
  - destruct (pollAll_None connect arr Hp) as (pre & pre' & c & rest & -> & Hpre & Hk).
    assert (Hn : (4 * length pre + 2 <= 4 * length (pre ++ c :: rest) + 1)%nat)
      by (rewrite length_app; simpl; lia).
    destruct (thread_nil_client connect st s pre pre' rest c Hst Hlen Hpre Hk _ Hn)
      as [Hrun _].
    rewrite Hrun. simpl. split; [| right; reflexivity].
    split; [discriminate |].
    intros Hall. rewrite Forall_app, Forall_cons in Hall.
    destruct Hall as (_ & Hc & _). contradiction.
Qed.

Lemma lone_poll_finishes_witness :
  st0 !! s_ptr s0 = Some (registry "hub.kubeconfig" "dr1.kubeconfig" "dr2.kubeconfig") /\
  s_len s0 = length (registry "hub.kubeconfig" "dr1.kubeconfig" "dr2.kubeconfig") /\
  let th := (run_alone (4 * length (registry "hub.kubeconfig" "dr1.kubeconfig" "dr2.kubeconfig") + 1)
               st0 (start_poll attemptA s0)).2 in
  (th.(th_pc) = PcReturned <->
   Forall (fun c => attemptA c.(context) <> None)
     (registry "hub.kubeconfig" "dr1.kubeconfig" "dr2.kubeconfig")) /\
  (th.(th_pc) = PcReturned \/ th.(th_pc) = PcPanicked).
Proof.
  exact (conj eq_refl (conj eq_refl
    (lone_poll_finishes attemptA st0 s0
       (registry "hub.kubeconfig" "dr1.kubeconfig" "dr2.kubeconfig") eq_refl eq_refl))).
Defined.

(** ** The event loop *)

Lemma Update_no_quit (m : model) (ms : msg) :
  is_quit_key ms = false -> existsb is_quit (cmds_of (Update m ms).2) = false.
Proof.
  destruct ms as [s | s | w h | k | t | |]; simpl; intros H; try reflexivity.
  rewrite H. simpl. repeat case_match; reflexivity.
Qed.

Lemma rt_step_handles (m : model) (ms : msg) (q : list msg) (started : list cmd) :
  ms <> MsgQuit ->
  rt_step {| rt_model := m; rt_queue := ms :: q; rt_started := started; rt_stopped := false |} =
    let '(m', oc) := Update m ms in
    {| rt_model := m';
       rt_queue := q ++ (if existsb is_quit (cmds_of oc) then [MsgQuit] else []);
       rt_started := started ++ cmds_of oc;
       rt_stopped := false |}.
Proof. intros H. destruct ms; [reflexivity .. | contradiction | reflexivity]. Qed.

(** Until a quit key, the event loop hands the waiting messages to
    [Update] in arrival order: after as many steps as messages, the model
    and the commands started are those of folding [Update] over them. *)
Theorem rt_run_fifo (m : model) (msgs : list msg) (started : list cmd) :
  Forall (fun ms => is_quit_key ms = false /\ ms <> MsgQuit) msgs ->
  rt_run (length msgs)
    {| rt_model := m; rt_queue := msgs; rt_started := started; rt_stopped := false |} =
    {| rt_model := (run_updates m msgs).1; rt_queue := [];
       rt_started := started ++ (run_updates m msgs).2; rt_stopped := false |}.
Proof.
  revert m started. induction msgs as [| ms rest IH]; intros m started Hall.
  - simpl. rewrite app_nil_r. reflexivity.
  - inversion Hall as [| ? ? [Hk Hq] Hrest]; subst.
    simpl. rewrite (rt_step_handles m ms rest started Hq).
    pose proof (Update_no_quit m ms Hk) as Hnq.
    destruct (Update m ms) as [m1 oc] eqn:E. simpl in Hnq. rewrite Hnq, app_nil_r.
    rewrite (IH m1 (started ++ cmds_of oc) Hrest).
    destruct (run_updates m1 rest) as [m2 cs]. simpl. rewrite app_assoc. reflexivity.
Qed.

Lemma rt_run_fifo_witness :
  Forall (fun ms => is_quit_key ms = false /\ ms <> MsgQuit) fifo_msgs /\
  rt_run (length fifo_msgs)
    {| rt_model := m0; rt_queue := fifo_msgs; rt_started := []; rt_stopped := false |} =
    {| rt_model := (run_updates m0 fifo_msgs).1; rt_queue := [];
       rt_started := [] ++ (run_updates m0 fifo_msgs).2; rt_stopped := false |}.
Proof.
  assert (H : Forall (fun ms => is_quit_key ms = false /\ ms <> MsgQuit) fifo_msgs)
    by (repeat constructor; discriminate).
  exact (conj H (rt_run_fifo m0 fifo_msgs [] H)).
Defined.

(** ** src/main.go against part_000 *)

